(** * rslts: a Go-style [Result] type for TypeScript

    Verification of [src/index.ts] (the [Result] type and its two
    constructors [ok] and [err]) together with the helper functions of
    the test suite that exercise it ([divide], [complexOperation],
    [fetchUserData] and the [CustomError] class).

    The program is JavaScript after type erasure, so the embedding is a
    small JavaScript run time: values, a store of objects addressed by
    references, and a computation type that threads the store and
    carries either a normal completion or a thrown value.  JavaScript
    numbers are IEEE 754 binary64, which is what [PrimFloat] is. *)

From Stdlib Require Import Floats.
From stdpp Require Import gmap strings.

Local Open Scope string_scope.

(** ** The run-time model *)

Module JS.

(** An object reference.  Two references are the same object exactly
    when they are equal ([Object.is], and [toBe] in the tests). *)
Definition loc : Set := positive.

(** JavaScript values: the primitives the program manipulates and
    references to objects in the store. *)
Inductive val : Set :=
| VUndefined
| VNull
| VBool (b : bool)
| VNum (n : float)
| VStr (s : string)
| VRef (l : loc).

(** The constructors whose prototypes occur in the program;
    [CustomError extends Error], and every object is an [Object]. *)
Inductive cls : Set := ObjectC | ErrorC | CustomErrorC.

(** An object: the class whose prototype it was created from, and its
    own properties. *)
Record obj : Type := Obj { obj_class : cls; obj_props : gmap string val }.

(** How a computation completes: normally with a value, or abruptly
    with a thrown value. *)
Inductive completion (A : Type) : Type :=
| Normal (a : A)
| Throw (e : val).
Global Arguments Normal {A} a.
Global Arguments Throw {A} e.

(** A computation reads and extends the store.  [None] marks a step
    that lies outside the modelled fragment (a property read on a
    value that is not a live object, arithmetic on a non-number),
    which the TypeScript types of the program exclude. *)
Definition M (A : Type) : Type :=
  gmap loc obj → option (completion A * gmap loc obj).

Global Instance M_ret : MRet M := λ A a h, Some (Normal a, h).

Global Instance M_bind : MBind M := λ A B f m h,
  match m h with
  | Some (Normal a, h') => f a h'
  | Some (Throw e, h') => Some (Throw e, h')
  | None => None
  end.

(** [throw e] *)
Definition throw {A : Type} (e : val) : M A := λ h, Some (Throw e, h).

(** [try { body } catch (error) { handler }] *)
Definition try_catch {A : Type} (body : M A) (handler : val → M A) : M A :=
  λ h, match body h with
       | Some (Throw e, h') => handler e h'
       | r => r
       end.

(** Allocation of a new object at a reference not yet in use. *)
Definition alloc (o : obj) : M val :=
  λ h, let l := fresh (dom h) in Some (Normal (VRef l), <[l := o]> h).

(** An object literal [{ k1: v1, ... }]. *)
Definition object_literal (props : gmap string val) : M val :=
  alloc (Obj ObjectC props).

(** [v.k]: the own property, [undefined] when the object has none of
    that name.  Properties inherited from a prototype are not modelled;
    the program reads own properties only ([success], [value], [error],
    [message], [cause]). *)
Definition get_prop (v : val) (k : string) : M val :=
  λ h, match v with
       | VRef l =>
           match h !! l with
           | Some o => Some (Normal (default VUndefined (obj_props o !! k)), h)
           | None => None
           end
       | _ => None
       end.

(** [v.k = x] *)
Definition set_prop (v : val) (k : string) (x : val) : M val :=
  λ h, match v with
       | VRef l =>
           match h !! l with
           | Some o =>
               Some (Normal x, <[l := Obj (obj_class o) (<[k := x]> (obj_props o))]> h)
           | None => None
           end
       | _ => None
       end.

(** [ToBoolean], as applied by [if (...)] and [!]. *)
Definition to_boolean (v : val) : bool :=
  match v with
  | VUndefined | VNull => false
  | VBool b => b
  | VNum n => negb (n =? 0)%float && (n =? n)%float
  | VStr s => match s with EmptyString => false | String _ _ => true end
  | VRef _ => true
  end.

(** [x === y] *)
Definition strict_eq (x y : val) : bool :=
  match x, y with
  | VUndefined, VUndefined => true
  | VNull, VNull => true
  | VBool a, VBool b => Bool.eqb a b
  | VNum a, VNum b => (a =? b)%float
  | VStr a, VStr b => String.eqb a b
  | VRef a, VRef b => bool_decide (a = b)
  | _, _ => false
  end.

(** [x * y] on numbers. *)
Definition mul (x y : val) : M val :=
  λ h, match x, y with
       | VNum a, VNum b => Some (Normal (VNum (a * b)%float), h)
       | _, _ => None
       end.

(** The prototype chain: is [c] the class [d] or derived from it? *)
Definition extends (c d : cls) : bool :=
  match c, d with
  | _, ObjectC => true
  | ErrorC, ErrorC => true
  | CustomErrorC, ErrorC => true
  | CustomErrorC, CustomErrorC => true
  | _, _ => false
  end.

(** [v instanceof c], read off the store. *)
Definition instance_of (h : gmap loc obj) (v : val) (c : cls) : bool :=
  match v with
  | VRef l =>
      match h !! l with
      | Some o => extends (obj_class o) c
      | None => false
      end
  | _ => false
  end.

Definition instanceof (v : val) (c : cls) : M bool :=
  λ h, Some (Normal (instance_of h v c), h).

(** The [Error] constructor called with [new.target = c]:
    [new c(message, options)] for [c] the class [Error] or a class
    derived from it.  The new object gets an own [message], and an own
    [cause] when [options] is an object that has one.  The [stack]
    property is left out. *)
Definition Error_construct (c : cls) (message : string) (options : val) : M val :=
  λ h, match options with
       | VRef l =>
           match h !! l with
           | Some o =>
               match obj_props o !! "cause" with
               | Some cause =>
                   alloc (Obj c {[ "message" := VStr message; "cause" := cause ]}) h
               | None => alloc (Obj c {[ "message" := VStr message ]}) h
               end
           | None => None
           end
       | _ => alloc (Obj c {[ "message" := VStr message ]}) h
       end.

(** [new Error(message, options)]; a missing argument is [undefined]. *)
Definition new_Error (message : string) (options : val) : M val :=
  Error_construct ErrorC message options.

(** A settled promise. *)
Inductive promise : Set :=
| Fulfilled (v : val)
| Rejected (reason : val).

(** An [async] function whose body contains no [await] runs to
    completion when it is called; the promise it returns is fulfilled
    with the returned value, or rejected with the thrown one. *)
Definition async (body : M val) : M promise :=
  λ h, match body h with
       | Some (Normal v, h') => Some (Normal (Fulfilled v), h')
       | Some (Throw e, h') => Some (Normal (Rejected e), h')
       | None => None
       end.

(** [await p]: the value of a fulfilled promise; the reason of a
    rejected one is thrown. *)
Definition await (p : promise) : M val :=
  match p with
  | Fulfilled v => mret v
  | Rejected e => throw e
  end.

(** What an observer reads at [v.k] in store [h], when [v] is a live
    object with an own property [k]. *)
Definition field (h : gmap loc obj) (v : val) (k : string) : option val :=
  match v with
  | VRef l => o ← h !! l; obj_props o !! k
  | _ => None
  end.

End JS.

Import JS.

(** ** [src/index.ts] *)

(** [function ok<T>(value: T): Result<T> { return { success: true, value }; }] *)
Definition ok (value : val) : M val :=
  object_literal {[ "success" := VBool true; "value" := value ]}.

(** [function err<E = Error>(error: E): Result<any, E> { return { success: false, error }; }] *)
Definition err (error : val) : M val :=
  object_literal {[ "success" := VBool false; "error" := error ]}.

(** [type Result<T, E = Error> =
       | { success: true; value: T }
       | { success: false; error: E };]

    The objects of the type, for [T] and [E] the values of the two
    payload types.  Object types are structural: an inhabitant has the
    listed properties and may have others. *)
Definition Result (T E : val → Prop) (o : obj) : Prop :=
  (obj_props o !! "success" = Some (VBool true)
   ∧ ∃ value, obj_props o !! "value" = Some value ∧ T value)
  ∨ (obj_props o !! "success" = Some (VBool false)
     ∧ ∃ error, obj_props o !! "error" = Some error ∧ E error).

(** The discriminant as consuming code inspects it: [result.success]
    compared with [true], with [false], and used as a condition. *)
Definition success_of (o : obj) : val :=
  default VUndefined (obj_props o !! "success").

Definition is_success (o : obj) : bool := strict_eq (success_of o) (VBool true).
Definition is_failure (o : obj) : bool := strict_eq (success_of o) (VBool false).

(** ** The test suite's helpers *)

(** [class CustomError extends Error {
       constructor(message: string) { super(message); this.name = "CustomError"; }
     }] *)
Definition new_CustomError (message : string) : M val :=
  this ← Error_construct CustomErrorC message VUndefined;
  _ ← set_prop this "name" (VStr "CustomError");
  mret this.

(** [function divide(a: number, b: number): Result<number> {
       if (b === 0) { return err(new Error("Division by zero")); }
       return ok(a / b);
     }] *)
Definition divide (a b : float) : M val :=
  if (b =? 0)%float then
    e ← new_Error "Division by zero" VUndefined;
    err e
  else
    ok (VNum (a / b)%float).

(** The body of [fetchUserData]:
    [if (userId <= 0) { return err(new Error("Invalid user ID")); }
     try {
       const mockData = userId === 1 ? "User Data" : null;
       if (mockData === null) { return err(new Error("User not found")); }
       return ok(mockData);
     } catch (error) {
       return err(error instanceof Error ? error : new Error("Unknown error"));
     }] *)
Definition fetchUserData_body (userId : float) : M val :=
  if (userId <=? 0)%float then
    e ← new_Error "Invalid user ID" VUndefined;
    err e
  else
    try_catch
      (let mockData := if (userId =? 1)%float then VStr "User Data" else VNull in
       if strict_eq mockData VNull then
         e ← new_Error "User not found" VUndefined;
         err e
       else
         ok mockData)
      (λ error,
         is_error ← instanceof error ErrorC;
         e ← (if is_error : bool then mret error
              else new_Error "Unknown error" VUndefined);
         err e).

(** [async function fetchUserData(userId: number): Promise<Result<string>>] *)
Definition fetchUserData (userId : float) : M promise :=
  async (fetchUserData_body userId).

(** [function complexOperation(input: number): Result<number, Error> {
       const divideResult = divide(10, input);
       if (!divideResult.success) {
         return err(new Error("Complex operation failed", { cause: divideResult.error }));
       }
       return ok(divideResult.value * 2);
     }] *)
Definition complexOperation (input : float) : M val :=
  divideResult ← divide 10 input;
  success ← get_prop divideResult "success";
  if negb (to_boolean success) then
    cause ← get_prop divideResult "error";
    options ← object_literal {[ "cause" := cause ]};
    e ← new_Error "Complex operation failed" options;
    err e
  else
    value ← get_prop divideResult "value";
    doubled ← mul value (VNum 2);
    ok doubled.

(** ** Observations used in the statements *)

(** [r] is an object of store [h] whose [success] is [true] and whose
    [value] is [v]. *)
Definition success_with (h : gmap loc obj) (r v : val) : Prop :=
  field h r "success" = Some (VBool true) ∧ field h r "value" = Some v.

(** [r] is an object of store [h] whose [success] is [false] and whose
    [error] is [e]. *)
Definition failure_with (h : gmap loc obj) (r e : val) : Prop :=
  field h r "success" = Some (VBool false) ∧ field h r "error" = Some e.

(** [r] is a failure whose error is an instance of [Error] with the
    given message. *)
Definition failure_message (h : gmap loc obj) (r : val) (message : string) : Prop :=
  ∃ e, failure_with h r e
       ∧ field h e "message" = Some (VStr message)
       ∧ instance_of h e ErrorC = true.

(** Every object of [h] is in [h'] as it was. *)
Definition preserved (h h' : gmap loc obj) : Prop :=
  ∀ l o, h !! l = Some o → h' !! l = Some o.

(** The object a computation returns when run in store [h]: what a
    structural comparison of results ([toEqual]) looks at. *)
Definition returned_object (m : M val) (h : gmap loc obj) : option obj :=
  match m h with
  | Some (Normal (VRef l), h') => h' !! l
  | _ => None
  end.

(** The values of the TypeScript types [number], [string] and (in
    store [h]) [Error]. *)
Definition is_number (v : val) : Prop := ∃ n, v = VNum n.
Definition is_string (v : val) : Prop := ∃ s, v = VStr s.
Definition is_Error (h : gmap loc obj) (v : val) : Prop :=
  instance_of h v ErrorC = true.

(** The [catch] clause of [fetchUserData]:
    [catch (error) {
       return err(error instanceof Error ? error : new Error("Unknown error"));
     }] *)
Definition fetchUserData_catch (error : val) : M val :=
  is_error ← instanceof error ErrorC;
  e ← (if is_error : bool then mret error
       else new_Error "Unknown error" VUndefined);
  err e.

(** ** Running computations *)

Section run.
Context {A B : Type}.

Lemma bind_run (m : M A) (f : A → M B) h a h' :
  m h = Some (Normal a, h') → (m ≫= f) h = f a h'.
Proof. intros Hm. unfold mbind, M_bind. by rewrite Hm. Qed.

Lemma bind_throw (m : M A) (f : A → M B) h e h' :
  m h = Some (Throw e, h') → (m ≫= f) h = Some (Throw e, h').
Proof. intros Hm. unfold mbind, M_bind. by rewrite Hm. Qed.

Lemma try_catch_normal (body : M A) handler h a h' :
  body h = Some (Normal a, h') → try_catch body handler h = Some (Normal a, h').
Proof. intros Hm. unfold try_catch. by rewrite Hm. Qed.
End run.

Lemma alloc_run o h :
  ∃ l, alloc o h = Some (Normal (VRef l), <[l := o]> h) ∧ h !! l = None.
Proof.
  exists (fresh (dom h)). split; [done|].
  apply not_elem_of_dom, is_fresh.
Qed.

Lemma get_prop_run l k o h :
  h !! l = Some o →
  get_prop (VRef l) k h = Some (Normal (default VUndefined (obj_props o !! k)), h).
Proof. intros Hl. unfold get_prop. by rewrite Hl. Qed.

Lemma preserved_refl h : preserved h h.
Proof. by intros l o. Qed.

Lemma preserved_trans h1 h2 h3 : preserved h1 h2 → preserved h2 h3 → preserved h1 h3.
Proof. intros H12 H23 l o Hl. by apply H23, H12. Qed.

Lemma preserved_insert (h : gmap loc obj) l o : h !! l = None → preserved h (<[l := o]> h).
Proof.
  intros Hl l' o' Hl'. rewrite lookup_insert_ne; [done|]. congruence.
Qed.

Lemma field_preserved h h' v k x :
  preserved h h' → field h v k = Some x → field h' v k = Some x.
Proof.
  intros Hp. destruct v as [| | | | |l]; simpl; try done.
  destruct (h !! l) as [o|] eqn:Hl; [|done].
  by rewrite (Hp _ _ Hl).
Qed.

Lemma instance_of_preserved h h' v c :
  preserved h h' → instance_of h v c = true → instance_of h' v c = true.
Proof.
  intros Hp. destruct v as [| | | | |l]; simpl; try done.
  destruct (h !! l) as [o|] eqn:Hl; [|done].
  by rewrite (Hp _ _ Hl).
Qed.

(** What [ok] does to the store: one new object, the literal. *)
Lemma ok_run value h :
  ∃ l, ok value h
       = Some (Normal (VRef l),
               <[l := Obj ObjectC {[ "success" := VBool true; "value" := value ]}]> h)
       ∧ h !! l = None.
Proof. apply alloc_run. Qed.

Lemma err_run error h :
  ∃ l, err error h
       = Some (Normal (VRef l),
               <[l := Obj ObjectC {[ "success" := VBool false; "error" := error ]}]> h)
       ∧ h !! l = None.
Proof. apply alloc_run. Qed.

Lemma new_Error_run c message h :
  ∃ l, Error_construct c message VUndefined h
       = Some (Normal (VRef l), <[l := Obj c {[ "message" := VStr message ]}]> h)
       ∧ h !! l = None.
Proof. apply alloc_run. Qed.

Lemma success_with_insert (h : gmap loc obj) l v :
  success_with (<[l := Obj ObjectC {[ "success" := VBool true; "value" := v ]}]> h)
               (VRef l) v.
Proof. split; simpl; by simplify_map_eq. Qed.

Lemma failure_with_insert (h : gmap loc obj) l e :
  failure_with (<[l := Obj ObjectC {[ "success" := VBool false; "error" := e ]}]> h)
               (VRef l) e.
Proof. split; simpl; by simplify_map_eq. Qed.

(** ** The constructors *)

(** C1: for every value [v] (no validation: [undefined] and [null]
    included) and in every store, [ok(v)] completes normally with a
    reference to a new object whose [success] is [true] and whose
    [value] is [v] itself; every other reference denotes what it did
    before, so [v] is neither copied nor changed. *)
Theorem ok_success_payload (v : val) (h : gmap loc obj) :
  ∃ l h',
    ok v h = Some (Normal (VRef l), h')
    ∧ h !! l = None
    ∧ success_with h' (VRef l) v
    ∧ ∀ l', l' ≠ l → h' !! l' = h !! l'.
Proof.
  destruct (ok_run v h) as (l & Hrun & Hnew).
  eexists l, _. split; [exact Hrun|]. split; [done|].
  split; [apply success_with_insert|].
  intros l' Hne. by rewrite lookup_insert_ne.
Qed.

Lemma new_CustomError_run message h :
  ∃ l, new_CustomError message h
       = Some (Normal (VRef l),
               <[l := Obj CustomErrorC
                          (<["name" := VStr "CustomError"]> {[ "message" := VStr message ]})]> h)
       ∧ h !! l = None.
Proof.
  destruct (new_Error_run CustomErrorC message h) as (l & Hrun & Hnew).
  exists l. split; [|done].
  unfold new_CustomError. rewrite (bind_run _ _ _ _ _ Hrun).
  unfold mbind, M_bind, set_prop. rewrite lookup_insert_eq. simpl.
  by rewrite insert_insert_eq.
Qed.

(** C2: for every error value [e] and in every store, [err(e)]
    completes normally with a reference to a new object whose [success]
    is [false] and whose [error] is [e] itself; every other reference
    denotes what it did before, so when [e] is an error object its
    message and its class are what they were.  In particular for a
    [CustomError]: the payload read back is the same object, it is an
    instance of [CustomError], and its message is the one it was built
    with. *)
Theorem err_failure_payload (e : val) (h : gmap loc obj) :
  (∃ l h',
     err e h = Some (Normal (VRef l), h')
     ∧ h !! l = None
     ∧ failure_with h' (VRef l) e
     ∧ (∀ l', l' ≠ l → h' !! l' = h !! l')
     ∧ ∀ p o, e = VRef p → h !! p = Some o →
         field h' e "message" = obj_props o !! "message"
         ∧ ∀ c, instance_of h' e c = extends (obj_class o) c)
  ∧ ∀ message, ∃ customError result h',
      (customError ← new_CustomError message;
       result ← err customError;
       mret (customError, result)) h = Some (Normal (customError, result), h')
      ∧ failure_with h' result customError
      ∧ field h' customError "message" = Some (VStr message)
      ∧ field h' customError "name" = Some (VStr "CustomError")
      ∧ instance_of h' customError CustomErrorC = true
      ∧ instance_of h' customError ErrorC = true.
Proof.
  split.
  - destruct (err_run e h) as (l & Hrun & Hnew).
    eexists l, _. split; [exact Hrun|]. split; [done|].
    split; [apply failure_with_insert|].
    split; [intros l' Hne; by rewrite lookup_insert_ne|].
    intros p o -> Hp. simpl.
    assert (l ≠ p) by congruence.
    rewrite lookup_insert_ne by done. by rewrite Hp.
  - intros message.
    destruct (new_CustomError_run message h) as (p & Hrun & Hnew).
    set (h1 := <[p := _]> h) in Hrun.
    destruct (err_run (VRef p) h1) as (l & Hrun' & Hnew').
    eexists (VRef p), (VRef l), _.
    split.
    { rewrite (bind_run _ _ _ _ _ Hrun), (bind_run _ _ _ _ _ Hrun'). done. }
    assert (l ≠ p) as Hne.
    { intros ->. subst h1. by rewrite lookup_insert_eq in Hnew'. }
    split; [apply failure_with_insert|].
    subst h1. simpl. rewrite lookup_insert_ne by done.
    rewrite lookup_insert_eq. simpl. by simplify_map_eq.
Qed.

(** C3: an object of type [Result<T, E>] answers exactly one of the
    two discriminant tests, [success === true] and [success === false];
    used as a condition, [success] agrees with the first; and the
    payload property that goes with the answer is there: [value] (a [T])
    when it is a success, [error] (an [E]) when it is a failure. *)
Theorem Result_discriminant (T E : val → Prop) (o : obj) :
  Result T E o →
  xorb (is_success o) (is_failure o) = true
  ∧ to_boolean (success_of o) = is_success o
  ∧ (is_success o = true → ∃ value, obj_props o !! "value" = Some value ∧ T value)
  ∧ (is_failure o = true → ∃ error, obj_props o !! "error" = Some error ∧ E error).
Proof.
  unfold is_success, is_failure, success_of.
  intros [[Hs Hv]|[Hs He]]; rewrite Hs; simpl; repeat split; try done.
Qed.

(** The objects [ok] and [err] build are of type [Result<T, E>],
    whatever [T] and [E], as soon as the payload is of its type; and
    they carry the payload of their own variant only. *)
Lemma ok_builds_Result (T E : val → Prop) v h :
  T v →
  ∃ l h' o, ok v h = Some (Normal (VRef l), h') ∧ h' !! l = Some o
            ∧ Result T E o ∧ obj_props o !! "error" = None.
Proof.
  intros Hv. destruct (ok_run v h) as (l & Hrun & _).
  eexists l, _, _. split; [exact Hrun|]. rewrite lookup_insert_eq.
  split; [done|]. split; [|done]. left. simpl. eauto.
Qed.

Lemma err_builds_Result (T E : val → Prop) e h :
  E e →
  ∃ l h' o, err e h = Some (Normal (VRef l), h') ∧ h' !! l = Some o
            ∧ Result T E o ∧ obj_props o !! "value" = None.
Proof.
  intros He. destruct (err_run e h) as (l & Hrun & _).
  eexists l, _, _. split; [exact Hrun|]. rewrite lookup_insert_eq.
  split; [done|]. split; [|done]. right. simpl. eauto.
Qed.

Lemma Result_discriminant_witness :
  let o := Obj ObjectC {[ "success" := VBool false; "error" := VStr "boom" ]} in
  Result (λ _, True) (λ e, e = VStr "boom") o
  ∧ xorb (is_success o) (is_failure o) = true
  ∧ is_failure o = true.
Proof.
  intros o.
  assert (Result (λ _, True) (λ e, e = VStr "boom") o) as Ho.
  { right. split; [reflexivity|]. exists (VStr "boom"). split; reflexivity. }
  split; [exact Ho|].
  split; [exact (proj1 (Result_discriminant _ _ o Ho))|reflexivity].
Defined.

(** ** [divide] *)

(** [return err(new Error(message));] allocates the error, then the
    result that refers to it. *)
Lemma err_new_Error_run message h :
  ∃ e r,
    (e ← new_Error message VUndefined; err e) h
    = Some (Normal (VRef r),
            <[r := Obj ObjectC {[ "success" := VBool false; "error" := VRef e ]}]>
              (<[e := Obj ErrorC {[ "message" := VStr message ]}]> h))
    ∧ h !! e = None ∧ h !! r = None ∧ e ≠ r.
Proof.
  destruct (new_Error_run ErrorC message h) as (e & Hrun & Hnew).
  set (h1 := <[e := _]> h) in Hrun.
  destruct (err_run (VRef e) h1) as (r & Hrun' & Hnew').
  exists e, r. unfold new_Error. rewrite (bind_run _ _ _ _ _ Hrun).
  split; [exact Hrun'|]. split; [done|].
  assert (e ≠ r) as Hne.
  { intros ->. subst h1. by rewrite lookup_insert_eq in Hnew'. }
  split; [|done]. subst h1. by rewrite lookup_insert_ne in Hnew'.
Qed.

Lemma failure_message_insert (h : gmap loc obj) e r message :
  e ≠ r →
  failure_message
    (<[r := Obj ObjectC {[ "success" := VBool false; "error" := VRef e ]}]>
       (<[e := Obj ErrorC {[ "message" := VStr message ]}]> h))
    (VRef r) message.
Proof.
  intros Hne. exists (VRef e). split; [apply failure_with_insert|].
  simpl. rewrite lookup_insert_ne by done. rewrite lookup_insert_eq.
  by simplify_map_eq.
Qed.

Lemma divide_zero_run a b h :
  (b =? 0)%float = true →
  ∃ e r,
    divide a b h
    = Some (Normal (VRef r),
            <[r := Obj ObjectC {[ "success" := VBool false; "error" := VRef e ]}]>
              (<[e := Obj ErrorC {[ "message" := VStr "Division by zero" ]}]> h))
    ∧ h !! e = None ∧ h !! r = None ∧ e ≠ r.
Proof. intros Hb. unfold divide. rewrite Hb. apply err_new_Error_run. Qed.

Lemma divide_nonzero_run a b h :
  (b =? 0)%float = false →
  ∃ r, divide a b h
       = Some (Normal (VRef r),
               <[r := Obj ObjectC {[ "success" := VBool true; "value" := VNum (a / b) ]}]> h)
       ∧ h !! r = None.
Proof. intros Hb. unfold divide. rewrite Hb. apply ok_run. Qed.

(** C4: in every store, [divide(a, b)] returns a failure whose error is
    an [Error] with message "Division by zero" when [b === 0], and a
    success whose value is the quotient [a / b] otherwise; so
    [divide(10, 2)] is a success with value [5] and [divide(10, 0)] a
    failure with that message. *)
Theorem divide_spec (a b : float) (h : gmap loc obj) :
  ((b =? 0)%float = true →
   ∃ r h', divide a b h = Some (Normal r, h')
           ∧ failure_message h' r "Division by zero")
  ∧ ((b =? 0)%float = false →
     ∃ r h', divide a b h = Some (Normal r, h')
             ∧ success_with h' r (VNum (a / b)))
  ∧ (∃ r h', divide 10 2 h = Some (Normal r, h') ∧ success_with h' r (VNum 5))
  ∧ (∃ r h', divide 10 0 h = Some (Normal r, h')
             ∧ failure_message h' r "Division by zero").
Proof.
  assert (∀ x y, (y =? 0)%float = true →
            ∃ r h', divide x y h = Some (Normal r, h')
                    ∧ failure_message h' r "Division by zero") as Hzero.
  { intros x y Hy. destruct (divide_zero_run x y h Hy) as (e & r & Hrun & _ & _ & Hne).
    eexists _, _. split; [exact Hrun|]. by apply failure_message_insert. }
  assert (∀ x y, (y =? 0)%float = false →
            ∃ r h', divide x y h = Some (Normal r, h')
                    ∧ success_with h' r (VNum (x / y))) as Hnonzero.
  { intros x y Hy. destruct (divide_nonzero_run x y h Hy) as (r & Hrun & _).
    eexists _, _. split; [exact Hrun|]. apply success_with_insert. }
  split; [apply Hzero|]. split; [apply Hnonzero|].
  split; [exact (Hnonzero 10%float 2%float eq_refl)|exact (Hzero 10%float 0%float eq_refl)].
Qed.

Lemma divide_spec_witness :
  (∃ r h', divide 7 (-0) ∅ = Some (Normal r, h')
           ∧ failure_message h' r "Division by zero")
  ∧ (∃ r h', divide 1 4 ∅ = Some (Normal r, h')
             ∧ success_with h' r (VNum 0.25)).
Proof.
  split.
  - exact (proj1 (divide_spec 7 (-0) ∅) eq_refl).
  - exact (proj1 (proj2 (divide_spec 1 4 ∅)) eq_refl).
Defined.

(** ** [complexOperation] *)

(** C5: when [divide(10, input)] fails, that is when [input === 0],
    [complexOperation(input)] returns a failure whose error is an
    [Error] with message "Complex operation failed" and whose [cause]
    is a reference to the error [divide] made, the one with message
    "Division by zero": the [cause] is the very reference that the
    failure [divide(10, input)] returned holds as its [error], and every
    object of the store [divide] left, that failure and its error
    included, is still there as it was. *)
Theorem complexOperation_wraps_cause (input : float) (h : gmap loc obj) :
  (input =? 0)%float = true →
  ∃ r h' cause,
    complexOperation input h = Some (Normal r, h')
    ∧ failure_message h' r "Complex operation failed"
    ∧ (∀ e, field h' r "error" = Some e → field h' e "cause" = Some (VRef cause))
    ∧ h !! cause = None
    ∧ field h' (VRef cause) "message" = Some (VStr "Division by zero")
    ∧ instance_of h' (VRef cause) ErrorC = true
    ∧ ∃ divideResult h1,
        divide 10 input h = Some (Normal divideResult, h1)
        ∧ failure_with h1 divideResult (VRef cause)
        ∧ preserved h1 h'.
Proof.
  intros Hin.
  destruct (divide_zero_run 10 input h Hin) as (e0 & r0 & Hdiv & He0 & Hr0 & Hne0).
  set (h2 := <[r0 := _]> _) in Hdiv.
  assert (h2 !! r0 = Some (Obj ObjectC {[ "success" := VBool false; "error" := VRef e0 ]}))
    as Hr0' by (subst h2; apply lookup_insert_eq).
  assert (h2 !! e0 = Some (Obj ErrorC {[ "message" := VStr "Division by zero" ]}))
    as He0'.
  { subst h2. rewrite lookup_insert_ne by done. apply lookup_insert_eq. }
  destruct (alloc_run (Obj ObjectC {[ "cause" := VRef e0 ]}) h2) as (l3 & Hopt & Hl3).
  set (h3 := <[l3 := _]> h2) in Hopt.
  destruct (alloc_run
              (Obj ErrorC {[ "message" := VStr "Complex operation failed";
                             "cause" := VRef e0 ]}) h3) as (l4 & Herr & Hl4).
  set (h4 := <[l4 := _]> h3) in Herr.
  destruct (err_run (VRef l4) h4) as (l5 & Hres & Hl5).
  set (h5 := <[l5 := _]> h4) in Hres.
  assert (preserved h2 h5) as Hpres.
  { apply preserved_trans with h3; [by apply preserved_insert|].
    apply preserved_trans with h4; by apply preserved_insert. }
  assert (l5 ≠ l4) as Hne54.
  { intros ->. subst h4. by rewrite lookup_insert_eq in Hl5. }
  exists (VRef l5), h5, e0. split.
  { unfold complexOperation.
    rewrite (bind_run _ _ _ _ _ Hdiv).
    rewrite (bind_run _ _ _ _ _ (get_prop_run _ "success" _ _ Hr0')). simpl.
    rewrite lookup_insert_eq. simpl.
    rewrite (bind_run _ _ _ _ _ (get_prop_run _ "error" _ _ Hr0')). simpl.
    rewrite lookup_insert_ne by done. rewrite lookup_singleton_eq. simpl.
    unfold object_literal. rewrite (bind_run _ _ _ _ _ Hopt).
    assert (new_Error "Complex operation failed" (VRef l3) h3
            = Some (Normal (VRef l4), h4)) as Hnew.
    { unfold new_Error, Error_construct. subst h3. rewrite lookup_insert_eq. simpl.
      rewrite lookup_singleton_eq. exact Herr. }
    rewrite (bind_run _ _ _ _ _ Hnew). exact Hres. }
  assert (field h5 (VRef l4) "message" = Some (VStr "Complex operation failed")
          ∧ field h5 (VRef l4) "cause" = Some (VRef e0)) as [Hmsg Hcause].
  { subst h5 h4. simpl. rewrite lookup_insert_ne by done.
    rewrite lookup_insert_eq. simpl. by simplify_map_eq. }
  split.
  { exists (VRef l4). split; [apply failure_with_insert|]. split; [done|].
    subst h5 h4. simpl. rewrite lookup_insert_ne by done.
    by rewrite lookup_insert_eq. }
  split.
  { intros e He. subst h5. simpl in He. rewrite lookup_insert_eq in He.
    simpl in He. simplify_map_eq. done. }
  split; [done|]. split.
  { apply (field_preserved h2); [done|]. simpl. rewrite He0'. by simplify_map_eq. }
  split.
  { apply (instance_of_preserved h2); [done|]. simpl. by rewrite He0'. }
  exists (VRef r0), h2. split; [exact Hdiv|]. split; [|done].
  subst h2. apply failure_with_insert.
Qed.

Lemma complexOperation_wraps_cause_witness :
  ∃ r h' cause,
    complexOperation 0 ∅ = Some (Normal r, h')
    ∧ failure_message h' r "Complex operation failed"
    ∧ (∀ e, field h' r "error" = Some e → field h' e "cause" = Some (VRef cause))
    ∧ (∅ : gmap loc obj) !! cause = None
    ∧ field h' (VRef cause) "message" = Some (VStr "Division by zero")
    ∧ instance_of h' (VRef cause) ErrorC = true
    ∧ ∃ divideResult h1,
        divide 10 0 ∅ = Some (Normal divideResult, h1)
        ∧ failure_with h1 divideResult (VRef cause)
        ∧ preserved h1 h'.
Proof. exact (complexOperation_wraps_cause 0 ∅ eq_refl). Defined.

(** ** [fetchUserData] *)

(** A number above zero is not at most zero (and so is not NaN). *)
Lemma ltb_0_leb_0 (u : float) : (0 <? u)%float = true → (u <=? 0)%float = false.
Proof.
  rewrite ltb_spec, leb_spec.
  change (Prim2SF 0) with (S754_zero false).
  destruct (Prim2SF u) as [s|s| |s m e]; simpl; try done.
  all: by destruct s.
Qed.

Lemma fetchUserData_body_invalid userId h :
  (userId <=? 0)%float = true →
  ∃ r h', fetchUserData_body userId h = Some (Normal r, h')
          ∧ failure_message h' r "Invalid user ID".
Proof.
  intros Hle. unfold fetchUserData_body. rewrite Hle.
  destruct (err_new_Error_run "Invalid user ID" h) as (e & r & Hrun & _ & _ & Hne).
  eexists _, _. split; [exact Hrun|]. by apply failure_message_insert.
Qed.

Lemma fetchUserData_body_not_found userId h :
  (userId <=? 0)%float = false → (userId =? 1)%float = false →
  ∃ r h', fetchUserData_body userId h = Some (Normal r, h')
          ∧ failure_message h' r "User not found".
Proof.
  intros Hle Hone. unfold fetchUserData_body. rewrite Hle, Hone. simpl.
  destruct (err_new_Error_run "User not found" h) as (e & r & Hrun & _ & _ & Hne).
  eexists _, _. split; [exact (try_catch_normal _ _ _ _ _ Hrun)|].
  by apply failure_message_insert.
Qed.

Lemma fetchUserData_body_found userId h :
  (userId <=? 0)%float = false → (userId =? 1)%float = true →
  ∃ r h', fetchUserData_body userId h = Some (Normal r, h')
          ∧ success_with h' r (VStr "User Data").
Proof.
  intros Hle Hone. unfold fetchUserData_body. rewrite Hle, Hone. simpl.
  destruct (ok_run (VStr "User Data") h) as (r & Hrun & _).
  eexists _, _. split; [exact (try_catch_normal _ _ _ _ _ Hrun)|].
  apply success_with_insert.
Qed.

(** When the body returns, the promise is fulfilled with what it
    returned, and awaiting it yields that value. *)
Lemma fetchUserData_returns userId h r h' :
  fetchUserData_body userId h = Some (Normal r, h') →
  fetchUserData userId h = Some (Normal (Fulfilled r), h')
  ∧ (p ← fetchUserData userId; await p) h = Some (Normal r, h').
Proof.
  intros Hbody.
  assert (fetchUserData userId h = Some (Normal (Fulfilled r), h')) as Hp.
  { unfold fetchUserData, async. by rewrite Hbody. }
  split; [done|]. by rewrite (bind_run _ _ _ _ _ Hp).
Qed.

(** C6: in every store, [fetchUserData(0)] returns a promise fulfilled
    with a failure whose error is an [Error] with message "Invalid user
    ID", and [fetchUserData(1)] one fulfilled with a success whose value
    is "User Data"; [await] on either completes normally with that
    Result and throws nothing. *)
Theorem fetchUserData_resolves (h : gmap loc obj) :
  (∃ r h',
     fetchUserData 0 h = Some (Normal (Fulfilled r), h')
     ∧ (p ← fetchUserData 0; await p) h = Some (Normal r, h')
     ∧ failure_message h' r "Invalid user ID")
  ∧ (∃ r h',
       fetchUserData 1 h = Some (Normal (Fulfilled r), h')
       ∧ (p ← fetchUserData 1; await p) h = Some (Normal r, h')
       ∧ success_with h' r (VStr "User Data")).
Proof.
  split.
  - destruct (fetchUserData_body_invalid 0 h eq_refl) as (r & h' & Hbody & Hobs).
    exists r, h'. destruct (fetchUserData_returns _ _ _ _ Hbody). done.
  - destruct (fetchUserData_body_found 1 h eq_refl eq_refl) as (r & h' & Hbody & Hobs).
    exists r, h'. destruct (fetchUserData_returns _ _ _ _ Hbody). done.
Qed.

(** C10: in every store and for every number [userId],
    [fetchUserData(userId)] returns a promise fulfilled with a failure:
    one with message "Invalid user ID" when [userId <= 0], negative
    numbers included, and one with message "User not found" when
    [userId > 0] and [userId] is not [1]. *)
Theorem fetchUserData_failure_ranges (userId : float) (h : gmap loc obj) :
  ((userId <=? 0)%float = true →
   ∃ r h', fetchUserData userId h = Some (Normal (Fulfilled r), h')
           ∧ (p ← fetchUserData userId; await p) h = Some (Normal r, h')
           ∧ failure_message h' r "Invalid user ID")
  ∧ ((0 <? userId)%float = true → (userId =? 1)%float = false →
     ∃ r h', fetchUserData userId h = Some (Normal (Fulfilled r), h')
             ∧ (p ← fetchUserData userId; await p) h = Some (Normal r, h')
             ∧ failure_message h' r "User not found").
Proof.
  split.
  - intros Hle.
    destruct (fetchUserData_body_invalid userId h Hle) as (r & h' & Hbody & Hobs).
    exists r, h'. destruct (fetchUserData_returns _ _ _ _ Hbody). done.
  - intros Hpos Hone.
    destruct (fetchUserData_body_not_found userId h (ltb_0_leb_0 _ Hpos) Hone)
      as (r & h' & Hbody & Hobs).
    exists r, h'. destruct (fetchUserData_returns _ _ _ _ Hbody). done.
Qed.

Lemma fetchUserData_failure_ranges_witness :
  (∃ r h', fetchUserData (-3) ∅ = Some (Normal (Fulfilled r), h')
           ∧ (p ← fetchUserData (-3); await p) ∅ = Some (Normal r, h')
           ∧ failure_message h' r "Invalid user ID")
  ∧ (∃ r h', fetchUserData 2.5 ∅ = Some (Normal (Fulfilled r), h')
             ∧ (p ← fetchUserData 2.5; await p) ∅ = Some (Normal r, h')
             ∧ failure_message h' r "User not found").
Proof.
  split.
  - exact (proj1 (fetchUserData_failure_ranges (-3) ∅) eq_refl).
  - exact (proj2 (fetchUserData_failure_ranges 2.5 ∅) eq_refl eq_refl).
Defined.

(** ** Frame and algebra of the constructors *)

(** C8: an object that exists, a Result in particular, is what it was
    after any call of [ok] or [err], which return a reference to
    another, new object; and reading one of its properties, the
    discriminant [success] in particular, leaves the whole store as it
    was. *)
Theorem Result_immutable (h : gmap loc obj) (l : loc) (o : obj) :
  h !! l = Some o →
  (∀ v, ∃ r h', ok v h = Some (Normal (VRef r), h')
                ∧ r ≠ l ∧ h !! r = None ∧ h' !! l = Some o)
  ∧ (∀ e, ∃ r h', err e h = Some (Normal (VRef r), h')
                  ∧ r ≠ l ∧ h !! r = None ∧ h' !! l = Some o)
  ∧ ∀ k, get_prop (VRef l) k h
         = Some (Normal (default VUndefined (obj_props o !! k)), h).
Proof.
  intros Hl. split; [|split].
  - intros v. destruct (ok_run v h) as (r & Hrun & Hnew).
    assert (r ≠ l) by congruence.
    eexists r, _. split; [exact Hrun|]. by rewrite lookup_insert_ne.
  - intros e. destruct (err_run e h) as (r & Hrun & Hnew).
    assert (r ≠ l) by congruence.
    eexists r, _. split; [exact Hrun|]. by rewrite lookup_insert_ne.
  - intros k. by apply get_prop_run.
Qed.

Lemma Result_immutable_witness :
  let o := Obj ObjectC {[ "success" := VBool true; "value" := VNum 42 ]} in
  let h : gmap loc obj := {[ 1%positive := o ]} in
  (∃ r h', err (VRef 1%positive) h = Some (Normal (VRef r), h')
           ∧ r ≠ 1%positive ∧ h !! r = None ∧ h' !! 1%positive = Some o)
  ∧ get_prop (VRef 1%positive) "success" h = Some (Normal (VBool true), h).
Proof.
  intros o h.
  assert (h !! 1%positive = Some o) as Hl by reflexivity.
  split.
  - exact (proj1 (proj2 (Result_immutable h 1%positive o Hl)) (VRef 1%positive)).
  - exact (proj2 (proj2 (Result_immutable h 1%positive o Hl)) "success").
Defined.

Lemma returned_object_ok v h :
  returned_object (ok v) h
  = Some (Obj ObjectC {[ "success" := VBool true; "value" := v ]}).
Proof.
  unfold returned_object. destruct (ok_run v h) as (l & -> & _).
  apply lookup_insert_eq.
Qed.

Lemma returned_object_err e h :
  returned_object (err e) h
  = Some (Obj ObjectC {[ "success" := VBool false; "error" := e ]}).
Proof.
  unfold returned_object. destruct (err_run e h) as (l & -> & _).
  apply lookup_insert_eq.
Qed.

(** C9: whatever the stores they are called in, the object [ok(v)]
    returns is never equal to the object [err(e)] returns; two calls of
    [ok] that return equal objects were given the same value, and two
    calls of [err] that return equal objects the same error. *)
Theorem ok_err_disjoint_injective (h1 h2 : gmap loc obj) :
  (∀ v e, returned_object (ok v) h1 ≠ returned_object (err e) h2)
  ∧ (∀ v1 v2, returned_object (ok v1) h1 = returned_object (ok v2) h2 → v1 = v2)
  ∧ (∀ e1 e2, returned_object (err e1) h1 = returned_object (err e2) h2 → e1 = e2).
Proof.
  split; [|split].
  - intros v e. rewrite returned_object_ok, returned_object_err.
    intros Heq.
    assert (obj_props (Obj ObjectC {[ "success" := VBool true; "value" := v ]})
              !! "success"
            = obj_props (Obj ObjectC {[ "success" := VBool false; "error" := e ]})
                !! "success") as Hs by congruence.
    simpl in Hs. by rewrite !lookup_insert_eq in Hs.
  - intros v1 v2. rewrite !returned_object_ok. intros Heq.
    assert (obj_props (Obj ObjectC {[ "success" := VBool true; "value" := v1 ]})
              !! "value"
            = obj_props (Obj ObjectC {[ "success" := VBool true; "value" := v2 ]})
                !! "value") as Hs by congruence.
    simpl in Hs. rewrite !lookup_insert_ne in Hs by done.
    rewrite !lookup_singleton_eq in Hs. congruence.
  - intros e1 e2. rewrite !returned_object_err. intros Heq.
    assert (obj_props (Obj ObjectC {[ "success" := VBool false; "error" := e1 ]})
              !! "error"
            = obj_props (Obj ObjectC {[ "success" := VBool false; "error" := e2 ]})
                !! "error") as Hs by congruence.
    simpl in Hs. rewrite !lookup_insert_ne in Hs by done.
    rewrite !lookup_singleton_eq in Hs. congruence.
Qed.

Lemma ok_err_disjoint_injective_witness :
  let h2 : gmap loc obj := {[ 1%positive := Obj ErrorC {[ "message" := VStr "m" ]} ]} in
  returned_object (ok (VNum 42)) ∅ = returned_object (ok (VNum 42)) h2
  ∧ VNum 42 = VNum 42.
Proof.
  intros h2.
  assert (returned_object (ok (VNum 42)) ∅ = returned_object (ok (VNum 42)) h2)
    as Heq by (vm_compute; reflexivity).
  split; [exact Heq|].
  exact (proj1 (proj2 (ok_err_disjoint_injective ∅ h2)) _ _ Heq).
Defined.

(** ** The assertions of the test suite, run in the empty store *)

Example test_ok_42 :
  returned_object (ok (VNum 42)) ∅
  = Some (Obj ObjectC {[ "success" := VBool true; "value" := VNum 42 ]}).
Proof. vm_compute. reflexivity. Qed.

Example test_divide_10_2 :
  returned_object (divide 10 2) ∅
  = Some (Obj ObjectC {[ "success" := VBool true; "value" := VNum 5 ]}).
Proof. vm_compute. reflexivity. Qed.

Example test_divide_10_0 :
  divide 10 0 ∅
  = Some (Normal (VRef 2%positive),
          {[ 1%positive := Obj ErrorC {[ "message" := VStr "Division by zero" ]};
             2%positive := Obj ObjectC {[ "success" := VBool false;
                                          "error" := VRef 1%positive ]} ]}).
Proof. vm_compute. reflexivity. Qed.

Example test_complexOperation_2 :
  returned_object (complexOperation 2) ∅
  = Some (Obj ObjectC {[ "success" := VBool true; "value" := VNum 10 ]}).
Proof. vm_compute. reflexivity. Qed.

Example test_fetchUserData_2 :
  ∃ r h', (p ← fetchUserData 2; await p) ∅ = Some (Normal r, h')
          ∧ failure_message h' r "User not found".
Proof.
  destruct (fetchUserData_body_not_found 2 ∅ eq_refl eq_refl) as (r & h' & Hbody & Hobs).
  exists r, h'. by destruct (fetchUserData_returns _ _ _ _ Hbody).
Qed.

(** Nothing in the [try] block throws: whatever the number, the promise
    is fulfilled, never rejected. *)
Lemma fetchUserData_never_rejects userId h :
  ∃ r h', fetchUserData userId h = Some (Normal (Fulfilled r), h').
Proof.
  destruct (userId <=? 0)%float eqn:Hle.
  - destruct (fetchUserData_body_invalid userId h Hle) as (r & h' & Hbody & _).
    exists r, h'. by destruct (fetchUserData_returns _ _ _ _ Hbody).
  - destruct (userId =? 1)%float eqn:Hone.
    + destruct (fetchUserData_body_found userId h Hle Hone) as (r & h' & Hbody & _).
      exists r, h'. by destruct (fetchUserData_returns _ _ _ _ Hbody).
    + destruct (fetchUserData_body_not_found userId h Hle Hone) as (r & h' & Hbody & _).
      exists r, h'. by destruct (fetchUserData_returns _ _ _ _ Hbody).
Qed.

(** ** Numbers at the edges *)

(** [n !== n] holds of NaN only. *)
Lemma eqb_irrefl_nan (u : float) : (u =? u)%float = false → Prim2SF u = S754_nan.
Proof.
  rewrite FloatAxioms.eqb_spec. unfold SFeqb.
  destruct (Prim2SF u) as [s|s| |s m e]; simpl; try done.
  - by destruct s.
  - destruct s; rewrite Z.compare_refl, Pos.compare_cont_refl; done.
Qed.

Lemma nan_leb_0 (u : float) : (u =? u)%float = false → (u <=? 0)%float = false.
Proof. intros Hu. rewrite leb_spec, (eqb_irrefl_nan u Hu). done. Qed.

Lemma nan_eqb (u v : float) : (u =? u)%float = false → (u =? v)%float = false.
Proof. intros Hu. rewrite FloatAxioms.eqb_spec, (eqb_irrefl_nan u Hu). done. Qed.

(** [1] is above zero. *)
Lemma eqb_1_leb_0 (u : float) : (u =? 1)%float = true → (u <=? 0)%float = false.
Proof.
  rewrite FloatAxioms.eqb_spec, leb_spec.
  change (Prim2SF 0) with (S754_zero false).
  set (one := Prim2SF 1). vm_compute in one. subst one.
  destruct (Prim2SF u) as [s|s| |s m e]; simpl; try done.
  all: by destruct s.
Qed.

(** A quotient with a NaN operand is NaN. *)
Lemma div_nan (a b : float) :
  (a =? a)%float = false ∨ (b =? b)%float = false →
  (a / b =? a / b)%float = false.
Proof.
  intros Hnan. rewrite FloatAxioms.eqb_spec, div_spec.
  assert (SF64div (Prim2SF a) (Prim2SF b) = S754_nan) as ->; [|done].
  destruct Hnan as [Ha|Hb].
  - by rewrite (eqb_irrefl_nan a Ha).
  - rewrite (eqb_irrefl_nan b Hb). by destruct (Prim2SF a).
Qed.

(** ** Results at their declared types *)

Lemma preserved_None h h' l : preserved h h' → h' !! l = None → h !! l = None.
Proof.
  intros Hp Hl. destruct (h !! l) as [o|] eqn:Ho; [|done].
  rewrite (Hp _ _ Ho) in Hl. done.
Qed.

Lemma ok_object_Result (T E : val → Prop) v :
  T v → Result T E (Obj ObjectC {[ "success" := VBool true; "value" := v ]}).
Proof. intros Hv. left. simpl. split; [done|]. exists v. by simplify_map_eq. Qed.

Lemma err_object_Result (T E : val → Prop) e :
  E e → Result T E (Obj ObjectC {[ "success" := VBool false; "error" := e ]}).
Proof. intros He. right. simpl. split; [done|]. exists e. by simplify_map_eq. Qed.

Lemma is_failure_ok_object v :
  is_failure (Obj ObjectC {[ "success" := VBool true; "value" := v ]}) = false.
Proof. unfold is_failure, success_of. simpl. by rewrite lookup_insert_eq. Qed.

Lemma is_failure_err_object e :
  is_failure (Obj ObjectC {[ "success" := VBool false; "error" := e ]}) = true.
Proof. unfold is_failure, success_of. simpl. by rewrite lookup_insert_eq. Qed.

(** The store after [return err(new Error(...))]: what was there is
    there, and the error is an [Error]. *)
Lemma failure_store_facts (h : gmap loc obj) e r props result :
  h !! e = None → h !! r = None → e ≠ r →
  preserved h (<[r := result]> (<[e := Obj ErrorC props]> h))
  ∧ is_Error (<[r := result]> (<[e := Obj ErrorC props]> h)) (VRef e).
Proof.
  intros He Hr Hne. split.
  - apply preserved_trans with (<[e := Obj ErrorC props]> h).
    + by apply preserved_insert.
    + apply preserved_insert. by rewrite lookup_insert_ne.
  - unfold is_Error. simpl. rewrite lookup_insert_ne by done.
    by rewrite lookup_insert_eq.
Qed.

(** X1: the object [ok(v)] returns is of type [Result<T, E>] for every
    [T] that [v] belongs to and every [E] whatever, and it has no
    [error] property; the object [err(e)] returns is of type
    [Result<T, E>] for every [E] that [e] belongs to and every [T]
    whatever, and it has no [value] property. *)
Theorem constructors_build_Result (T E : val → Prop) (h : gmap loc obj) :
  (∀ v, T v →
     ∃ l h' o, ok v h = Some (Normal (VRef l), h') ∧ h' !! l = Some o
               ∧ Result T E o ∧ obj_props o !! "error" = None)
  ∧ (∀ e, E e →
       ∃ l h' o, err e h = Some (Normal (VRef l), h') ∧ h' !! l = Some o
                 ∧ Result T E o ∧ obj_props o !! "value" = None).
Proof.
  split.
  - intros v Hv. by apply ok_builds_Result.
  - intros e He. by apply err_builds_Result.
Qed.

Lemma constructors_build_Result_witness :
  (∃ l h' o, ok (VNum 42) ∅ = Some (Normal (VRef l), h') ∧ h' !! l = Some o
             ∧ Result is_number (λ _, False) o ∧ obj_props o !! "error" = None)
  ∧ (∃ l h' o, err (VStr "boom") ∅ = Some (Normal (VRef l), h') ∧ h' !! l = Some o
               ∧ Result (λ _, False) is_string o ∧ obj_props o !! "value" = None).
Proof.
  split.
  - apply (proj1 (constructors_build_Result is_number (λ _, False) ∅)).
    by exists 42%float.
  - apply (proj2 (constructors_build_Result (λ _, False) is_string ∅)).
    by exists "boom".
Defined.

(** X2: whatever the numbers and the store, [divide(a, b)] completes
    normally (it never throws) with a reference to a new object of type
    [Result<number, Error>], which is a failure exactly when [b === 0];
    every object that was in the store is still there as it was. *)
Theorem divide_returns_Result (a b : float) (h : gmap loc obj) :
  ∃ r h' o,
    divide a b h = Some (Normal (VRef r), h')
    ∧ h !! r = None
    ∧ preserved h h'
    ∧ h' !! r = Some o
    ∧ Result is_number (is_Error h') o
    ∧ (is_failure o = true ↔ (b =? 0)%float = true).
Proof.
  destruct (b =? 0)%float eqn:Hb.
  - destruct (divide_zero_run a b h Hb) as (e & r & Hrun & He & Hr & Hne).
    destruct (failure_store_facts h e r
                {[ "message" := VStr "Division by zero" ]}
                (Obj ObjectC {[ "success" := VBool false; "error" := VRef e ]})
                He Hr Hne) as [Hpres Herr].
    eexists r, _, _. split; [exact Hrun|]. split; [done|]. split; [done|].
    split; [apply lookup_insert_eq|].
    split; [by apply err_object_Result|].
    by rewrite is_failure_err_object.
  - destruct (divide_nonzero_run a b h Hb) as (r & Hrun & Hr).
    eexists r, _, _. split; [exact Hrun|]. split; [done|].
    split; [by apply preserved_insert|].
    split; [apply lookup_insert_eq|].
    split; [apply ok_object_Result; by eexists|].
    by rewrite is_failure_ok_object.
Qed.

(** X3: a NaN operand is not an error.  When [b] is NaN, or [a] is NaN
    and [b] is not zero, [divide(a, b)] returns a success whose value
    is NaN. *)
Theorem divide_NaN_is_success (a b : float) (h : gmap loc obj) :
  (b =? b)%float = false ∨ ((a =? a)%float = false ∧ (b =? 0)%float = false) →
  ∃ r h' q,
    divide a b h = Some (Normal r, h')
    ∧ success_with h' r (VNum q)
    ∧ (q =? q)%float = false.
Proof.
  intros Hnan.
  assert ((b =? 0)%float = false) as Hb.
  { destruct Hnan as [Hb|[_ Hb]]; [by apply nan_eqb|done]. }
  destruct (divide_nonzero_run a b h Hb) as (r & Hrun & _).
  eexists _, _, _. split; [exact Hrun|].
  split; [apply success_with_insert|].
  apply div_nan. destruct Hnan as [Hb'|[Ha _]]; auto.
Qed.

Lemma divide_NaN_is_success_witness :
  (∃ r h' q, divide 1 nan ∅ = Some (Normal r, h')
             ∧ success_with h' r (VNum q) ∧ (q =? q)%float = false)
  ∧ (∃ r h' q, divide nan 2 ∅ = Some (Normal r, h')
               ∧ success_with h' r (VNum q) ∧ (q =? q)%float = false).
Proof.
  split.
  - exact (divide_NaN_is_success 1 nan ∅ (or_introl eq_refl)).
  - exact (divide_NaN_is_success nan 2 ∅ (or_intror (conj eq_refl eq_refl))).
Defined.

(** ** [complexOperation], both ways *)

Lemma complexOperation_nonzero_run input h :
  (input =? 0)%float = false →
  ∃ r0 r,
    complexOperation input h
    = Some (Normal (VRef r),
            <[r := Obj ObjectC {[ "success" := VBool true;
                                  "value" := VNum (10 / input * 2) ]}]>
              (<[r0 := Obj ObjectC {[ "success" := VBool true;
                                      "value" := VNum (10 / input) ]}]> h))
    ∧ h !! r0 = None ∧ h !! r = None ∧ r0 ≠ r.
Proof.
  intros Hin.
  destruct (divide_nonzero_run 10 input h Hin) as (r0 & Hdiv & Hr0).
  set (h1 := <[r0 := _]> h) in Hdiv.
  assert (h1 !! r0 = Some (Obj ObjectC {[ "success" := VBool true;
                                          "value" := VNum (10 / input) ]}))
    as Hr0' by (subst h1; apply lookup_insert_eq).
  destruct (ok_run (VNum (10 / input * 2)) h1) as (r & Hok & Hr).
  assert (r0 ≠ r) as Hne by congruence.
  exists r0, r. split.
  { unfold complexOperation.
    rewrite (bind_run _ _ _ _ _ Hdiv).
    rewrite (bind_run _ _ _ _ _ (get_prop_run _ "success" _ _ Hr0')). simpl.
    rewrite lookup_insert_eq. simpl.
    rewrite (bind_run _ _ _ _ _ (get_prop_run _ "value" _ _ Hr0')). simpl.
    rewrite lookup_insert_ne by done. rewrite lookup_singleton_eq. simpl.
    exact Hok. }
  split; [done|]. split; [|done].
  subst h1. by rewrite lookup_insert_ne in Hr.
Qed.

Lemma complexOperation_zero_run input h :
  (input =? 0)%float = true →
  ∃ r h' e,
    complexOperation input h = Some (Normal (VRef r), h')
    ∧ h !! r = None
    ∧ preserved h h'
    ∧ h' !! r = Some (Obj ObjectC {[ "success" := VBool false; "error" := VRef e ]})
    ∧ is_Error h' (VRef e).
Proof.
  intros Hin.
  destruct (divide_zero_run 10 input h Hin) as (e0 & r0 & Hdiv & He0 & Hr0 & Hne0).
  destruct (failure_store_facts h e0 r0
              {[ "message" := VStr "Division by zero" ]}
              (Obj ObjectC {[ "success" := VBool false; "error" := VRef e0 ]})
              He0 Hr0 Hne0) as [Hpres2 _].
  set (h2 := <[r0 := _]> _) in *.
  assert (h2 !! r0 = Some (Obj ObjectC {[ "success" := VBool false; "error" := VRef e0 ]}))
    as Hr0' by (subst h2; apply lookup_insert_eq).
  destruct (alloc_run (Obj ObjectC {[ "cause" := VRef e0 ]}) h2) as (l3 & Hopt & Hl3).
  set (h3 := <[l3 := _]> h2) in Hopt.
  destruct (alloc_run
              (Obj ErrorC {[ "message" := VStr "Complex operation failed";
                             "cause" := VRef e0 ]}) h3) as (l4 & Herr & Hl4).
  set (h4 := <[l4 := _]> h3) in Herr.
  destruct (err_run (VRef l4) h4) as (l5 & Hres & Hl5).
  set (h5 := <[l5 := _]> h4) in Hres.
  assert (preserved h h4) as Hpres4.
  { apply preserved_trans with h2; [done|].
    apply preserved_trans with h3; by apply preserved_insert. }
  assert (l5 ≠ l4) as Hne54.
  { intros ->. subst h4. by rewrite lookup_insert_eq in Hl5. }
  exists l5, h5, l4. split.
  { unfold complexOperation.
    rewrite (bind_run _ _ _ _ _ Hdiv).
    rewrite (bind_run _ _ _ _ _ (get_prop_run _ "success" _ _ Hr0')). simpl.
    rewrite lookup_insert_eq. simpl.
    rewrite (bind_run _ _ _ _ _ (get_prop_run _ "error" _ _ Hr0')). simpl.
    rewrite lookup_insert_ne by done. rewrite lookup_singleton_eq. simpl.
    unfold object_literal. rewrite (bind_run _ _ _ _ _ Hopt).
    assert (new_Error "Complex operation failed" (VRef l3) h3
            = Some (Normal (VRef l4), h4)) as Hnew.
    { unfold new_Error, Error_construct. subst h3. rewrite lookup_insert_eq. simpl.
      rewrite lookup_singleton_eq. exact Herr. }
    rewrite (bind_run _ _ _ _ _ Hnew). exact Hres. }
  split; [by apply (preserved_None h h4)|].
  split; [apply preserved_trans with h4; [done|by apply preserved_insert]|].
  split; [subst h5; apply lookup_insert_eq|].
  unfold is_Error. subst h5 h4. simpl. rewrite lookup_insert_ne by done.
  by rewrite lookup_insert_eq.
Qed.

(** X4: when [input] is not zero (NaN included), [complexOperation(input)]
    returns a success whose value is twice the quotient, [10 / input * 2]. *)
Theorem complexOperation_doubles_quotient (input : float) (h : gmap loc obj) :
  (input =? 0)%float = false →
  ∃ r h',
    complexOperation input h = Some (Normal r, h')
    ∧ success_with h' r (VNum (10 / input * 2)).
Proof.
  intros Hin.
  destruct (complexOperation_nonzero_run input h Hin) as (r0 & r & Hrun & _).
  eexists _, _. split; [exact Hrun|]. apply success_with_insert.
Qed.

Lemma complexOperation_doubles_quotient_witness :
  ∃ r h', complexOperation 4 ∅ = Some (Normal r, h')
          ∧ success_with h' r (VNum 5).
Proof. exact (complexOperation_doubles_quotient 4 ∅ eq_refl). Defined.

(** X5: whatever the number and the store, [complexOperation(input)]
    completes normally (it never throws) with a reference to a new
    object of type [Result<number, Error>], which is a failure exactly
    when [input === 0]; every object that was in the store is still
    there as it was. *)
Theorem complexOperation_returns_Result (input : float) (h : gmap loc obj) :
  ∃ r h' o,
    complexOperation input h = Some (Normal (VRef r), h')
    ∧ h !! r = None
    ∧ preserved h h'
    ∧ h' !! r = Some o
    ∧ Result is_number (is_Error h') o
    ∧ (is_failure o = true ↔ (input =? 0)%float = true).
Proof.
  destruct (input =? 0)%float eqn:Hin.
  - destruct (complexOperation_zero_run input h Hin)
      as (r & h' & e & Hrun & Hr & Hpres & Ho & He).
    eexists r, h', _. split; [exact Hrun|]. split; [done|]. split; [done|].
    split; [exact Ho|]. split; [by apply err_object_Result|].
    by rewrite is_failure_err_object.
  - destruct (complexOperation_nonzero_run input h Hin)
      as (r0 & r & Hrun & Hr0 & Hr & Hne).
    eexists r, _, _. split; [exact Hrun|]. split; [done|].
    split.
    { apply preserved_trans with
        (<[r0 := Obj ObjectC {[ "success" := VBool true;
                                "value" := VNum (10 / input) ]}]> h).
      - by apply preserved_insert.
      - apply preserved_insert. by rewrite lookup_insert_ne. }
    split; [apply lookup_insert_eq|].
    split; [apply ok_object_Result; by eexists|].
    by rewrite is_failure_ok_object.
Qed.

(** ** [fetchUserData] on every number *)

Lemma is_success_ok_object v :
  is_success (Obj ObjectC {[ "success" := VBool true; "value" := v ]}) = true.
Proof. unfold is_success, success_of. simpl. by rewrite lookup_insert_eq. Qed.

Lemma is_success_err_object e :
  is_success (Obj ObjectC {[ "success" := VBool false; "error" := e ]}) = false.
Proof. unfold is_success, success_of. simpl. by rewrite lookup_insert_eq. Qed.

(** The body of [fetchUserData], branch by branch. *)
Lemma fetchUserData_body_run userId h :
  ∃ r h' o,
    fetchUserData_body userId h = Some (Normal (VRef r), h')
    ∧ h !! r = None
    ∧ preserved h h'
    ∧ h' !! r = Some o
    ∧ Result is_string (is_Error h') o
    ∧ (is_success o = true ↔ (userId =? 1)%float = true)
    ∧ ((userId =? 1)%float = true → obj_props o !! "value" = Some (VStr "User Data")).
Proof.
  assert (∀ message (body : M val),
            (∀ r h2, (e ← new_Error message VUndefined; err e) h
                     = Some (Normal (VRef r), h2) →
                     body h = Some (Normal (VRef r), h2)) →
            (userId =? 1)%float = false →
            ∃ r h' o,
              body h = Some (Normal (VRef r), h') ∧ h !! r = None ∧ preserved h h'
              ∧ h' !! r = Some o ∧ Result is_string (is_Error h') o
              ∧ (is_success o = true ↔ (userId =? 1)%float = true)
              ∧ ((userId =? 1)%float = true
                 → obj_props o !! "value" = Some (VStr "User Data"))) as Hfail.
  { intros message body Hbody Hone.
    destruct (err_new_Error_run message h) as (e & r & Hrun & He & Hr & Hne).
    destruct (failure_store_facts h e r {[ "message" := VStr message ]}
                (Obj ObjectC {[ "success" := VBool false; "error" := VRef e ]})
                He Hr Hne) as [Hpres Herr].
    eexists r, _, _. split; [exact (Hbody _ _ Hrun)|].
    split; [done|]. split; [done|]. split; [apply lookup_insert_eq|].
    split; [by apply err_object_Result|].
    rewrite is_success_err_object, Hone. done. }
  unfold fetchUserData_body.
  destruct (userId <=? 0)%float eqn:Hle.
  - apply (Hfail "Invalid user ID"); [done|].
    destruct (userId =? 1)%float eqn:Hone; [|done].
    by rewrite (eqb_1_leb_0 _ Hone) in Hle.
  - destruct (userId =? 1)%float eqn:Hone; simpl.
    + destruct (ok_run (VStr "User Data") h) as (r & Hrun & Hr).
      eexists r, _, _. split; [exact (try_catch_normal _ _ _ _ _ Hrun)|].
      split; [done|]. split; [by apply preserved_insert|].
      split; [apply lookup_insert_eq|].
      split; [apply ok_object_Result; by eexists|].
      rewrite is_success_ok_object. split; [done|]. intros _. simpl.
      by simplify_map_eq.
    + apply (Hfail "User not found"); [|done].
      intros r h2 Hrun. exact (try_catch_normal _ _ _ _ _ Hrun).
Qed.

(** X6: whatever the number (NaN and the infinities included) and the
    store, the promise [fetchUserData(userId)] returns is fulfilled,
    never rejected, with a reference to a new object of type
    [Result<string, Error>], so [await] on it never throws; every object
    that was in the store is still there as it was. *)
Theorem fetchUserData_returns_Result (userId : float) (h : gmap loc obj) :
  ∃ r h' o,
    fetchUserData userId h = Some (Normal (Fulfilled (VRef r)), h')
    ∧ (p ← fetchUserData userId; await p) h = Some (Normal (VRef r), h')
    ∧ h !! r = None
    ∧ preserved h h'
    ∧ h' !! r = Some o
    ∧ Result is_string (is_Error h') o.
Proof.
  destruct (fetchUserData_body_run userId h)
    as (r & h' & o & Hbody & Hr & Hpres & Ho & Hty & _).
  destruct (fetchUserData_returns _ _ _ _ Hbody) as [Hp Hawait].
  by exists r, h', o.
Qed.

(** X7: [fetchUserData(userId)] is fulfilled with a success exactly
    when [userId === 1], and the value is then "User Data": the test
    [userId <= 0] that comes first never turns that input away. *)
Theorem fetchUserData_success_iff (userId : float) (h : gmap loc obj) :
  ∃ r h' o,
    fetchUserData userId h = Some (Normal (Fulfilled (VRef r)), h')
    ∧ h' !! r = Some o
    ∧ (is_success o = true ↔ (userId =? 1)%float = true)
    ∧ ((userId =? 1)%float = true → obj_props o !! "value" = Some (VStr "User Data")).
Proof.
  destruct (fetchUserData_body_run userId h)
    as (r & h' & o & Hbody & _ & _ & Ho & _ & Hiff & Hval).
  destruct (fetchUserData_returns _ _ _ _ Hbody) as [Hp _].
  by exists r, h', o.
Qed.

(** X8: NaN is not an invalid id.  When [userId] is NaN the test
    [userId <= 0] is false, and [fetchUserData] is fulfilled with the
    failure "User not found", not "Invalid user ID". *)
Theorem fetchUserData_NaN_not_found (userId : float) (h : gmap loc obj) :
  (userId =? userId)%float = false →
  ∃ r h',
    fetchUserData userId h = Some (Normal (Fulfilled r), h')
    ∧ failure_message h' r "User not found".
Proof.
  intros Hnan.
  destruct (fetchUserData_body_not_found userId h (nan_leb_0 _ Hnan) (nan_eqb _ 1 Hnan))
    as (r & h' & Hbody & Hobs).
  exists r, h'. by destruct (fetchUserData_returns _ _ _ _ Hbody).
Qed.

Lemma fetchUserData_NaN_not_found_witness :
  ∃ r h', fetchUserData nan ∅ = Some (Normal (Fulfilled r), h')
          ∧ failure_message h' r "User not found".
Proof. exact (fetchUserData_NaN_not_found nan ∅ eq_refl). Defined.

(** The [catch] clause is the handler of the [try] in [fetchUserData]. *)
Lemma fetchUserData_body_catch userId :
  (userId <=? 0)%float = false →
  fetchUserData_body userId
  = try_catch
      (let mockData := if (userId =? 1)%float then VStr "User Data" else VNull in
       if strict_eq mockData VNull then
         e ← new_Error "User not found" VUndefined;
         err e
       else
         ok mockData)
      fetchUserData_catch.
Proof. intros Hle. unfold fetchUserData_body. by rewrite Hle. Qed.

(** X9: the [catch] clause of [fetchUserData] turns whatever was thrown
    into a failure and throws nothing itself.  A thrown [Error] (or an
    instance of a class derived from it) becomes the error of the
    failure as the same object; anything else is replaced by a new
    [Error] with message "Unknown error".  Every object that was in the
    store is still there as it was. *)
Theorem fetchUserData_catch_converts (error : val) (h : gmap loc obj) :
  (instance_of h error ErrorC = true →
   ∃ r h',
     fetchUserData_catch error h = Some (Normal (VRef r), h')
     ∧ h !! r = None ∧ preserved h h'
     ∧ failure_with h' (VRef r) error
     ∧ is_Error h' error)
  ∧ (instance_of h error ErrorC = false →
     ∃ r h',
       fetchUserData_catch error h = Some (Normal (VRef r), h')
       ∧ h !! r = None ∧ preserved h h'
       ∧ failure_message h' (VRef r) "Unknown error").
Proof.
  split; intros Hinst.
  - destruct (err_run error h) as (r & Hrun & Hr).
    eexists r, _. split.
    { unfold fetchUserData_catch, mbind, M_bind, instanceof. rewrite Hinst.
      exact Hrun. }
    split; [done|]. split; [by apply preserved_insert|].
    split; [apply failure_with_insert|].
    apply (instance_of_preserved h); [by apply preserved_insert|done].
  - destruct (err_new_Error_run "Unknown error" h) as (e & r & Hrun & He & Hr & Hne).
    destruct (failure_store_facts h e r {[ "message" := VStr "Unknown error" ]}
                (Obj ObjectC {[ "success" := VBool false; "error" := VRef e ]})
                He Hr Hne) as [Hpres _].
    eexists r, _. split.
    { unfold fetchUserData_catch, mbind, M_bind, instanceof. rewrite Hinst.
      exact Hrun. }
    split; [done|]. split; [done|]. by apply failure_message_insert.
Qed.

Lemma fetchUserData_catch_converts_witness :
  let thrown := Obj CustomErrorC {[ "message" := VStr "boom" ]} in
  let h : gmap loc obj := {[ 1%positive := thrown ]} in
  (∃ r h', fetchUserData_catch (VRef 1%positive) h = Some (Normal (VRef r), h')
           ∧ h !! r = None ∧ preserved h h'
           ∧ failure_with h' (VRef r) (VRef 1%positive)
           ∧ is_Error h' (VRef 1%positive))
  ∧ (∃ r h', fetchUserData_catch (VStr "boom") h = Some (Normal (VRef r), h')
             ∧ h !! r = None ∧ preserved h h'
             ∧ failure_message h' (VRef r) "Unknown error").
Proof.
  intros thrown h. split.
  - exact (proj1 (fetchUserData_catch_converts (VRef 1%positive) h) eq_refl).
  - exact (proj2 (fetchUserData_catch_converts (VStr "boom") h) eq_refl).
Defined.

(** ** [CustomError] *)

(** X10: [new CustomError(message)] completes normally with a reference
    to a new object that is an instance of [CustomError] and of
    [Error], whose [message] is the argument and whose own [name] is
    "CustomError" (setting the name does not disturb the message);
    every object that was in the store is still there as it was.  A
    plain [new Error(message)] is an [Error], is not an instance of
    [CustomError], and has no own [name]. *)
Theorem CustomError_is_a_tagged_Error (message : string) (h : gmap loc obj) :
  (∃ l h',
     new_CustomError message h = Some (Normal (VRef l), h')
     ∧ h !! l = None
     ∧ preserved h h'
     ∧ field h' (VRef l) "message" = Some (VStr message)
     ∧ field h' (VRef l) "name" = Some (VStr "CustomError")
     ∧ instance_of h' (VRef l) CustomErrorC = true
     ∧ instance_of h' (VRef l) ErrorC = true)
  ∧ (∃ l h',
       new_Error message VUndefined h = Some (Normal (VRef l), h')
       ∧ field h' (VRef l) "message" = Some (VStr message)
       ∧ field h' (VRef l) "name" = None
       ∧ instance_of h' (VRef l) CustomErrorC = false
       ∧ instance_of h' (VRef l) ErrorC = true).
Proof.
  split.
  - destruct (new_CustomError_run message h) as (l & Hrun & Hl).
    eexists l, _. split; [exact Hrun|]. split; [done|].
    split; [by apply preserved_insert|].
    simpl. rewrite lookup_insert_eq. simpl. by simplify_map_eq.
  - destruct (new_Error_run ErrorC message h) as (l & Hrun & Hl).
    eexists l, _. split; [exact Hrun|].
    simpl. rewrite lookup_insert_eq. simpl. by simplify_map_eq.
Qed.

(** ** Payloads are shared, not copied *)

(** X11: a Result holds its payload by reference.  When the payload is
    an object and that object is changed after [ok] (or [err]) has
    returned, reading the payload back through the Result shows the
    change. *)
Theorem constructors_share_payload
    (p : loc) (o : obj) (k : string) (x : val) (h : gmap loc obj) :
  h !! p = Some o →
  (∃ h', (result ← ok (VRef p);
          _ ← set_prop (VRef p) k x;
          payload ← get_prop result "value";
          get_prop payload k) h = Some (Normal x, h'))
  ∧ (∃ h', (result ← err (VRef p);
            _ ← set_prop (VRef p) k x;
            payload ← get_prop result "error";
            get_prop payload k) h = Some (Normal x, h')).
Proof.
  intros Hp.
  assert (∀ (build : val → M val) name tag,
            (∀ v h0, ∃ l, build v h0
                          = Some (Normal (VRef l),
                                  <[l := Obj ObjectC {[ "success" := VBool tag;
                                                        name := v ]}]> h0)
                          ∧ h0 !! l = None) →
            "success" ≠ name →
            ∃ h', (result ← build (VRef p);
                   _ ← set_prop (VRef p) k x;
                   payload ← get_prop result name;
                   get_prop payload k) h = Some (Normal x, h')) as Hgen.
  { intros build name tag Hbuild Hname.
    destruct (Hbuild (VRef p) h) as (l & Hrun & Hl).
    assert (l ≠ p) as Hne by congruence.
    set (h1 := <[l := _]> h) in Hrun.
    assert (h1 !! p = Some o) as Hp1 by (subst h1; by rewrite lookup_insert_ne).
    set (h2 := <[p := Obj (obj_class o) (<[k := x]> (obj_props o))]> h1).
    assert (set_prop (VRef p) k x h1 = Some (Normal x, h2)) as Hset.
    { unfold set_prop. by rewrite Hp1. }
    assert (h2 !! l = Some (Obj ObjectC {[ "success" := VBool tag; name := VRef p ]}))
      as Hl2.
    { subst h2 h1. rewrite lookup_insert_ne by done. apply lookup_insert_eq. }
    assert (h2 !! p = Some (Obj (obj_class o) (<[k := x]> (obj_props o)))) as Hp2
      by (subst h2; apply lookup_insert_eq).
    exists h2.
    rewrite (bind_run _ _ _ _ _ Hrun), (bind_run _ _ _ _ _ Hset).
    rewrite (bind_run _ _ _ _ _ (get_prop_run _ name _ _ Hl2)). simpl.
    rewrite lookup_insert_ne by done. rewrite lookup_singleton_eq. simpl.
    unfold get_prop. rewrite Hp2. simpl. by rewrite lookup_insert_eq. }
  split.
  - apply (Hgen ok "value" true); [apply ok_run|done].
  - apply (Hgen err "error" false); [apply err_run|done].
Qed.

Lemma constructors_share_payload_witness :
  let o := Obj ObjectC {[ "name" := VStr "Test" ]} in
  let h : gmap loc obj := {[ 1%positive := o ]} in
  ∃ h', (result ← ok (VRef 1%positive);
         _ ← set_prop (VRef 1%positive) "name" (VStr "Changed");
         payload ← get_prop result "value";
         get_prop payload "name") h = Some (Normal (VStr "Changed"), h').
Proof.
  intros o h.
  exact (proj1 (constructors_share_payload 1%positive o "name" (VStr "Changed") h eq_refl)).
Defined.
